(** * Pincer: the rate limiter and the blocking HTTP wrapper

    A shallow embedding of

    - [src/pincer/core/ratelimiter.py]: the [Bucket] dataclass and the
      [RateLimiter] class with [save_response_bucket] (the specification's
      [observe] / [recordHeaders]) and [wait_until_not_ratelimited] (the
      specification's [acquire]);
    - [src/pyscord/core/http/__init__.py]: [HttpApi] and its [get];
    - [src/pincer/utils/conversion.py]: [construct_client_dict];
    - [src/pincer/objects/guild/channel.py]: [ChannelType],
      [_channel_type_map] and the class selection of [Channel.from_id] and
      [Channel.edit].

    Python [int] is [Z]; Python [float] is IEEE binary64, the kernel's
    [PrimFloat.float]; [Dict] is a finite map; an exception is a value of
    [exc] carried by [outcome].  The clock ([time()]) is an argument of each
    call, the request to [sleep] is part of the result. *)

From Stdlib Require Import ZArith String Ascii List.
From Stdlib Require Import PrimFloat Uint63.
From stdpp Require Import gmap strings.

Open Scope string_scope.
Open Scope Z_scope.

(** ** The fragment of the Python runtime the two files use *)

Module py.

(** The exceptions the modelled code can raise. *)
Inductive exc : Type :=
| KeyError (key : string)          (* [d[key]] on a missing key *)
| ValueError (arg : string)        (* [int(arg)] / [float(arg)] on a bad literal *)
| JSONDecodeError                  (* [res.json()] on a body that is not JSON *)
| ConnectionError                  (* the transport got no response *)
| Exception (status : Z).          (* [raise Exception(res.status_code)] *)

(** A call either returns a value or raises. *)
Inductive outcome (A : Type) : Type :=
| Return (a : A)
| Raise (e : exc).
Arguments Return {A} a.
Arguments Raise {A} e.

#[global] Instance outcome_ret : MRet outcome := fun A a => Return a.
#[global] Instance outcome_bind : MBind outcome :=
  fun A B k m => match m with Return a => k a | Raise e => Raise e end.

Definition returned {A} (o : outcome A) : bool :=
  match o with Return _ => true | Raise _ => false end.

(** [d[key]]: the value, or [KeyError]. *)
Definition getitem (d : gmap string string) (key : string) : outcome string :=
  match d !! key with
  | Some v => Return v
  | None => Raise (KeyError key)
  end.

(** Truth value of a [str]: false exactly for the empty string. *)
Definition truthy (s : string) : bool :=
  match s with EmptyString => false | String _ _ => true end.

(** The builtin conversions [int(str)] and [float(str)].  They belong to the
    interpreter, not to the repository, so the development is stated over any
    pair of conversions; [None] stands for [ValueError]. *)
Class Builtins : Type := {
  int_of : string -> option Z;
  float_of : string -> option float
}.

Definition int_ `{Builtins} (s : string) : outcome Z :=
  match int_of s with Some z => Return z | None => Raise (ValueError s) end.

Definition float_ `{Builtins} (s : string) : outcome float :=
  match float_of s with Some x => Return x | None => Raise (ValueError s) end.

(** Python's [max(a, b)] on floats: [b] when [b > a], otherwise [a]. *)
Definition max_ (a b : float) : float := if PrimFloat.ltb a b then b else a.

(** *** Concrete conversions, for evaluating the code on literal headers

    [decimal_int] reads [[+-]?[0-9]+]; [decimal_float] reads
    [[+-]?[0-9]+(.[0-9]+)?] as the quotient of its digits by a power of ten,
    one correctly rounded binary64 division.  On such literals with at most 15
    significant digits both agree with Python's [int] and [float].  Python
    accepts further forms (surrounding blanks, underscores, exponents, [inf],
    [nan]), which these two reject: the theorems are stated for any
    conversions, and the concrete runs below use plain literals only. *)

Definition digit_of (c : ascii) : option Z :=
  let n := Z.of_N (N_of_ascii c) in
  if (48 <=? n) && (n <=? 57) then Some (n - 48) else None.

Fixpoint digits_value (acc : Z) (s : string) : option Z :=
  match s with
  | EmptyString => Some acc
  | String c s' =>
      match digit_of c with
      | Some d => digits_value (10 * acc + d) s'
      | None => None
      end
  end.

(** Sign and unsigned rest of a literal. *)
Definition split_sign (s : string) : bool * string :=
  match s with
  | String "-"%char s' => (true, s')
  | String "+"%char s' => (false, s')
  | _ => (false, s)
  end.

Definition decimal_int (s : string) : option Z :=
  let '(neg, body) := split_sign s in
  match body with
  | EmptyString => None
  | _ => (fun v => if neg then - v else v) <$> digits_value 0 body
  end.

(** Splits [body] at the first ["."]: integer part, fraction part (if any). *)
Fixpoint split_point (body : string) : string * option string :=
  match body with
  | EmptyString => (EmptyString, None)
  | String "."%char s' => (EmptyString, Some s')
  | String c s' => let '(i, f) := split_point s' in (String c i, f)
  end.

Definition float_of_Z (z : Z) : float := PrimFloat.of_uint63 (Uint63.of_Z z).

Definition decimal_float (s : string) : option float :=
  let '(neg, body) := split_sign s in
  let '(ipart, fpart) := split_point body in
  let frac := default EmptyString fpart in
  match ipart, fpart with
  | EmptyString, _ | _, Some EmptyString => None
  | _, _ =>
      match digits_value 0 (ipart ++ frac) with
      | Some mant =>
          let x := (float_of_Z mant / float_of_Z (10 ^ Z.of_nat (String.length frac)))%float in
          Some (if neg then (- x)%float else x)
      | None => None
      end
  end.

Definition decimal : Builtins :=
  {| int_of := decimal_int; float_of := decimal_float |}.

End py.

Import py.

(** ** [pincer/core/ratelimiter.py] *)

Module ratelimiter.

(** Modelled from the spec: [HttpCallable] is imported from
    [pincer/core/http.py], which is missing; the route key is
    [(endpoint_template, http_method)], so a value of this type is the HTTP
    method of the call. *)
Inductive HttpCallable : Type :=
| DELETE | GET | HEAD | OPTIONS | PATCH | POST | PUT.

#[global] Instance HttpCallable_eq_dec : EqDecision HttpCallable.
Proof. solve_decision. Defined.

#[global] Instance HttpCallable_countable : Countable HttpCallable.
Proof.
  refine (inj_countable'
    (fun m => match m with
              | DELETE => 0%nat | GET => 1%nat | HEAD => 2%nat | OPTIONS => 3%nat
              | PATCH => 4%nat | POST => 5%nat | PUT => 6%nat end)
    (fun n => match n with
              | 0%nat => DELETE | 1%nat => GET | 2%nat => HEAD | 3%nat => OPTIONS
              | 4%nat => PATCH | 5%nat => POST | _ => PUT end) _).
  by intros [].
Defined.

(** [@dataclass class Bucket] *)
Record Bucket : Type := {
  limit : Z;
  remaining : Z;
  reset : float;
  reset_after : float;
  time_cached : float
}.

(** [class RateLimiter]: the two dictionaries of [__init__]. *)
Record RateLimiter : Type := {
  bucket_map : gmap (string * HttpCallable) string;
  buckets : gmap string Bucket
}.

(** [RateLimiter()] *)
Definition __init__ : RateLimiter := {| bucket_map := ∅; buckets := ∅ |}.

(** The [Bucket(...)] expression of [save_response_bucket]: the keyword
    arguments are evaluated left to right, the first failing lookup or
    conversion raises; [now] is what [time()] returns. *)
Definition Bucket_of_header `{Builtins}
    (header : gmap string string) (now : float) : outcome Bucket :=
  limit ← getitem header "X-RateLimit-Limit" ≫= int_;
  remaining ← getitem header "X-RateLimit-Remaining" ≫= int_;
  reset ← getitem header "X-RateLimit-Reset" ≫= float_;
  reset_after ← getitem header "X-RateLimit-Reset-After" ≫= float_;
  mret {| limit := limit; remaining := remaining; reset := reset;
          reset_after := reset_after; time_cached := now |}.

(** [RateLimiter.save_response_bucket]: the object after the call and how the
    call ended.  The route is written to [bucket_map] before the [Bucket] is
    built, so that write survives an exception of the construction. *)
Definition save_response_bucket `{Builtins} (self : RateLimiter)
    (endpoint : string) (method : HttpCallable)
    (header : gmap string string) (now : float) : RateLimiter * outcome unit :=
  match header !! "X-RateLimit-Bucket" with
  | Some bucket_id =>
      if truthy bucket_id then
        let self1 :=
          {| bucket_map := <[(endpoint, method) := bucket_id]> (bucket_map self);
             buckets := buckets self |} in
        match Bucket_of_header header now with
        | Return bucket =>
            ({| bucket_map := bucket_map self1;
                buckets := <[bucket_id := bucket]> (buckets self1) |}, Return tt)
        | Raise e => (self1, Raise e)
        end
      else (self, Return tt)
  | None => (self, Return tt)
  end.

(** What a call of [wait_until_not_ratelimited] awaited before returning. *)
Inductive awaited : Type :=
| Immediate                       (* returned without awaiting anything *)
| Slept (sleep_time : float).     (* awaited [sleep(sleep_time)] *)

(** [RateLimiter.wait_until_not_ratelimited]; [cur_time] is what [time()]
    returns.  The method reads [self] and does not write to it. *)
Definition wait_until_not_ratelimited (self : RateLimiter)
    (endpoint : string) (method : HttpCallable) (cur_time : float)
    : outcome awaited :=
  match bucket_map self !! (endpoint, method) with
  | None => Return Immediate
  | Some bucket_id =>
      match buckets self !! bucket_id with
      | None => Raise (KeyError bucket_id)
      | Some bucket =>
          if remaining bucket =? 0 then
            Return (Slept (cur_time - time_cached bucket + reset_after bucket)%float)
          else Return Immediate
      end
  end.

(** How long a call suspended its caller.  [asyncio.sleep(delay)] resumes at
    once when [delay <= 0] and after [delay] seconds otherwise. *)
Definition suspended_for (a : awaited) : float :=
  match a with
  | Immediate => 0%float
  | Slept delay => if PrimFloat.leb delay 0 then 0%float else delay
  end.

(** *** Histories of calls *)

(** The two entry points as the HTTP client calls them, with the clock value
    each call reads. *)
Inductive call : Type :=
| observe (endpoint : string) (method : HttpCallable)
          (header : gmap string string) (now : float)
| acquire (endpoint : string) (method : HttpCallable) (cur_time : float).

(** The limiter after one call.  An exception of [save_response_bucket]
    ends the request that made the call, not the limiter: the object lives on
    as the call left it. *)
Definition step `{Builtins} (self : RateLimiter) (c : call) : RateLimiter :=
  match c with
  | observe endpoint method header now =>
      (save_response_bucket self endpoint method header now).1
  | acquire _ _ _ => self
  end.

Definition run `{Builtins} (self : RateLimiter) (calls : list call) : RateLimiter :=
  foldl step self calls.

Definition reachable `{Builtins} (self : RateLimiter) : Prop :=
  exists calls, run __init__ calls = self.

(** Whether no [save_response_bucket] of the history raised. *)
Fixpoint observes_return `{Builtins} (self : RateLimiter) (calls : list call) : bool :=
  match calls with
  | [] => true
  | c :: rest =>
      match c with
      | observe endpoint method header now =>
          returned (save_response_bucket self endpoint method header now).2
      | acquire _ _ _ => true
      end && observes_return (step self c) rest
  end.

(** Every bucket id in [bucket_map] has a record in [buckets]: what the
    lookup [self.buckets[bucket_id]] of [wait_until_not_ratelimited] needs. *)
Definition mapped_ids_stored (self : RateLimiter) : Prop :=
  map_Forall (fun _ bucket_id => is_Some (buckets self !! bucket_id))
             (bucket_map self).

(** *** Predicates of the specification, to be compared with the code *)

(** [0 <= remaining <= limit] for a stored record. *)
Definition in_bounds (bucket : Bucket) : bool :=
  (0 <=? remaining bucket) && (remaining bucket <=? limit bucket).

(** Every stored record satisfies [0 <= remaining <= limit]. *)
Definition all_in_bounds (self : RateLimiter) : Prop :=
  map_Forall (fun _ bucket => in_bounds bucket = true) (buckets self).

(** The same for the numbers a response carries (true when it carries none). *)
Definition header_in_bounds `{Builtins} (header : gmap string string) : bool :=
  match header !! "X-RateLimit-Limit" ≫= int_of,
        header !! "X-RateLimit-Remaining" ≫= int_of with
  | Some l, Some r => (0 <=? r) && (r <=? l)
  | _, _ => true
  end.

Definition call_in_bounds `{Builtins} (c : call) : bool :=
  match c with
  | observe _ _ header _ => header_in_bounds header
  | acquire _ _ _ => true
  end.

(** The wait the specification gives for an exhausted bucket:
    [max(0, cached_at + reset_after - now)]. *)
Definition spec_wait (bucket : Bucket) (now : float) : float :=
  max_ 0 (time_cached bucket + reset_after bucket - now).

(** The specification's global lockout: a rejection with global scope observed
    at [now] with [Retry-After: retry_after] sets [until = now + retry_after],
    and the lockout is active while [now < until].  The code keeps no such
    state; these two definitions only name what the specification expects. *)
Definition spec_global_until (now retry_after : float) : float :=
  (now + retry_after)%float.

Definition spec_global_active (until now : float) : bool :=
  PrimFloat.ltb now until.

(** *** Concrete responses and routes used to run the code *)

Definition headers (bucket_id lim rem rst rst_after : string) : gmap string string :=
  <["X-RateLimit-Bucket" := bucket_id]>
    (<["X-RateLimit-Limit" := lim]>
       (<["X-RateLimit-Remaining" := rem]>
          (<["X-RateLimit-Reset" := rst]>
             (<["X-RateLimit-Reset-After" := rst_after]> ∅)))).

(** Scenario A of the specification:
    [{Bucket: "b1", Limit: 5, Remaining: 0, Reset-After: 2.0}] at [t = 0]. *)
Definition scenario_A_header : gmap string string :=
  headers "b1" "5" "0" "2.0" "2.0".

Definition scenario_A_bucket : Bucket :=
  {| limit := 5; remaining := 0; reset := 2; reset_after := 2; time_cached := 0 |}.

Definition scenario_A : RateLimiter :=
  (save_response_bucket (H := decimal) __init__
     "/channels/{id}" GET scenario_A_header 0).1.

(** Scenario B: a 429 with global scope and [Retry-After: 1.0]; it names no
    bucket. *)
Definition global_429_header : gmap string string :=
  <["Retry-After" := "1.0"]> (<["X-RateLimit-Global" := "true"]> ∅).

(** A response that names its bucket and nothing else. *)
Definition bucket_only_header : gmap string string :=
  <["X-RateLimit-Bucket" := "b1"]> ∅.

(** *** What a response and a history say about buckets *)

(** The bucket id a response names: the value of [X-RateLimit-Bucket] when
    the header is present and not empty, which is what the test
    [if bucket_id := header.get("X-RateLimit-Bucket")] lets through. *)
Definition named_bucket (header : gmap string string) : option string :=
  match header !! "X-RateLimit-Bucket" with
  | Some bucket_id => if truthy bucket_id then Some bucket_id else None
  | None => None
  end.

(** The four headers the [Bucket] is built from, in the order they are read. *)
Definition bucket_fields : list string :=
  ["X-RateLimit-Limit"; "X-RateLimit-Remaining";
   "X-RateLimit-Reset"; "X-RateLimit-Reset-After"].

(** Whether [c] is a response on the route [(endpoint, method)] that names a
    bucket. *)
Definition names_bucket_on (endpoint : string) (method : HttpCallable)
    (c : call) : bool :=
  match c with
  | observe endpoint' method' header _ =>
      bool_decide ((endpoint', method') = (endpoint, method))
      && bool_decide (is_Some (named_bucket header))
  | acquire _ _ _ => false
  end.

End ratelimiter.

(** ** [pyscord/core/http/__init__.py] *)

Module http.

(** What [requests.get] hands back, as far as [HttpApi.get] reads it:
    [res.status_code], and [res.json()], which returns the decoded body or
    raises. *)
Record Response (J : Type) : Type := {
  status_code : Z;
  json : outcome J
}.
Arguments status_code {J} r.
Arguments json {J} r.

(** The network as [requests.get] sees it: the requests sent so far (URL and
    headers, oldest first) and the responses the server will give to the next
    requests, in order. *)
Record Network (J : Type) : Type := {
  sent : list (string * gmap string string);
  pending : list (Response J)
}.
Arguments sent {J} n.
Arguments pending {J} n.

(** [requests.get(url, headers=headers)]: one request goes out and the next
    response comes back; with none left the transport fails. *)
Definition requests_get {J} (url : string) (headers : gmap string string)
    (net : Network J) : Network J * outcome (Response J) :=
  match pending net with
  | res :: rest =>
      ({| sent := sent net ++ [(url, headers)]; pending := rest |}, Return res)
  | [] =>
      ({| sent := sent net ++ [(url, headers)]; pending := [] |},
       Raise ConnectionError)
  end.

(** [class HttpApi] *)
Record HttpApi : Type := {
  header : gmap string string;
  endpoint : string
}.

(** [HttpApi.__init__]; [version] is the text the f-string formats it to. *)
Definition __init__ (version token : string) : HttpApi :=
  {| header := <["Authorization" := "Bot " ++ token]> ∅;
     endpoint := "https://discord.com/api/v" ++ version |}.

(** [HttpApi.get] *)
Definition get {J} (self : HttpApi) (path : string) (net : Network J)
    : Network J * outcome J :=
  let '(net', r) :=
    requests_get (endpoint self ++ "/" ++ path) (header self) net in
  match r with
  | Raise e => (net', Raise e)
  | Return res =>
      if status_code res =? 200 then (net', json res)
      else (net', Raise (Exception (status_code res)))
  end.

(** A server that rejects the first request with 429 and would accept the
    second one. *)
Definition rejects_once : Network string :=
  {| sent := [];
     pending := [ {| status_code := 429; json := Return "{}" |};
                  {| status_code := 200; json := Return "{}" |} ] |}.

End http.

(** ** [pincer/utils/conversion.py] *)

Module conversion.

Section construct_client_dict.

(** The values of a payload dictionary are Python objects.  [Client] is
    declared in [pincer/client.py], which is missing: a client is one of these
    objects, and [http] reads its attribute [http]. *)
Context {object : Type} (http : object -> object).

(** [construct_client_dict]: the dictionary display
    [{**data, "_client": client, "_http": client.http}] builds a new
    dictionary; a later key replaces an earlier equal one. *)
Definition construct_client_dict (client : object)
    (data : gmap string object) : gmap string object :=
  <["_http" := http client]> (<["_client" := client]> data).

End construct_client_dict.

End conversion.

(** ** [pincer/objects/guild/channel.py]: channel types and channel classes *)

Module channel.

(** [class ChannelType(IntEnum)].  The three thread members are defined when
    [GatewayConfig.version >= 9]; [_channel_type_map] at the end of the module
    names [ChannelType.GUILD_PUBLIC_THREAD] without a test, so the module
    only loads with such a version and all members exist whenever any of its
    code runs. *)
Inductive ChannelType : Type :=
| GUILD_TEXT | DM | GUILD_VOICE | GROUP_DM | GUILD_CATEGORY | GUILD_NEWS
| GUILD_STORE
| GUILD_NEWS_THREAD | GUILD_PUBLIC_THREAD | GUILD_PRIVATE_THREAD
| GUILD_STAGE_VOICE.

(** The integer of a member. *)
Definition value (t : ChannelType) : Z :=
  match t with
  | GUILD_TEXT => 0 | DM => 1 | GUILD_VOICE => 2 | GROUP_DM => 3
  | GUILD_CATEGORY => 4 | GUILD_NEWS => 5 | GUILD_STORE => 6
  | GUILD_NEWS_THREAD => 10 | GUILD_PUBLIC_THREAD => 11
  | GUILD_PRIVATE_THREAD => 12
  | GUILD_STAGE_VOICE => 13
  end.

(** The members in definition order. *)
Definition members : list ChannelType :=
  [GUILD_TEXT; DM; GUILD_VOICE; GROUP_DM; GUILD_CATEGORY; GUILD_NEWS;
   GUILD_STORE; GUILD_NEWS_THREAD; GUILD_PUBLIC_THREAD; GUILD_PRIVATE_THREAD;
   GUILD_STAGE_VOICE].

(** [ChannelType(raw)]: the first member with that value; [None] stands for
    the [ValueError] an enumeration raises on a value of no member. *)
Definition ChannelType_ (raw : Z) : option ChannelType :=
  List.find (fun t => value t =? raw) members.

#[global] Instance ChannelType_eq_dec : EqDecision ChannelType.
Proof. solve_decision. Defined.

#[global] Instance ChannelType_countable : Countable ChannelType.
Proof.
  refine (inj_countable value ChannelType_ _). by intros [].
Defined.

(** [Channel] and its subclasses. *)
Inductive channel_class : Type :=
| Channel | TextChannel | VoiceChannel | CategoryChannel | NewsChannel
| PublicThread | PrivateThread.

(** [_channel_type_map] *)
Definition _channel_type_map : gmap ChannelType channel_class :=
  list_to_map
    [(GUILD_TEXT, TextChannel); (GUILD_VOICE, VoiceChannel);
     (GUILD_CATEGORY, CategoryChannel); (GUILD_NEWS, NewsChannel);
     (GUILD_PUBLIC_THREAD, PublicThread); (GUILD_PRIVATE_THREAD, PrivateThread)].

(** The class [Channel.from_id] and [Channel.edit] build their result with,
    from the integer under ["type"] in the response: both replace it by
    [ChannelType(data.pop("type"))] and then take
    [_channel_type_map.get(data["type"], Channel)]. *)
Definition channel_cls (raw_type : Z) : option channel_class :=
  t ← ChannelType_ raw_type;
  Some (default Channel (_channel_type_map !! t)).

End channel.

Import ratelimiter.

(** * Properties of the rate limiter *)

Section save_response_bucket_facts.
Context `{Builtins}.

Implicit Types (self : RateLimiter) (header : gmap string string).
Implicit Types (endpoint bucket_id : string) (method : HttpCallable).

Lemma save_without_bucket self endpoint method header now :
  header !! "X-RateLimit-Bucket" = None ->
  save_response_bucket self endpoint method header now = (self, Return tt).
Proof. intros Hnone. unfold save_response_bucket. by rewrite Hnone. Qed.

Lemma save_returns self endpoint method header now bucket_id bucket :
  header !! "X-RateLimit-Bucket" = Some bucket_id ->
  truthy bucket_id = true ->
  Bucket_of_header header now = Return bucket ->
  save_response_bucket self endpoint method header now =
    ({| bucket_map := <[(endpoint, method) := bucket_id]> (bucket_map self);
        buckets := <[bucket_id := bucket]> (buckets self) |}, Return tt).
Proof.
  intros Hid Htrue Hbucket. unfold save_response_bucket.
  by rewrite Hid, Htrue, Hbucket.
Qed.

Lemma save_raises self endpoint method header now bucket_id e :
  header !! "X-RateLimit-Bucket" = Some bucket_id ->
  truthy bucket_id = true ->
  Bucket_of_header header now = Raise e ->
  save_response_bucket self endpoint method header now =
    ({| bucket_map := <[(endpoint, method) := bucket_id]> (bucket_map self);
        buckets := buckets self |}, Raise e).
Proof.
  intros Hid Htrue Hbucket. unfold save_response_bucket.
  by rewrite Hid, Htrue, Hbucket.
Qed.

(** The clock enters the record as [time_cached] and nowhere else: whether
    the construction raises, and the four other fields, depend on the headers
    alone. *)
Lemma Bucket_of_header_clock header t1 t2 :
  Bucket_of_header header t2 =
    match Bucket_of_header header t1 with
    | Return b =>
        Return {| limit := limit b; remaining := remaining b; reset := reset b;
                  reset_after := reset_after b; time_cached := t2 |}
    | Raise e => Raise e
    end.
Proof.
  unfold Bucket_of_header.
  destruct (getitem header "X-RateLimit-Limit" ≫= int_) as [l|]; [|done].
  destruct (getitem header "X-RateLimit-Remaining" ≫= int_) as [r|]; [|done].
  destruct (getitem header "X-RateLimit-Reset" ≫= float_) as [rs|]; [|done].
  destruct (getitem header "X-RateLimit-Reset-After" ≫= float_) as [ra|]. all: reflexivity.
Qed.

Lemma Bucket_of_header_time_cached header now bucket :
  Bucket_of_header header now = Return bucket -> time_cached bucket = now.
Proof.
  unfold Bucket_of_header.
  destruct (getitem header "X-RateLimit-Limit" ≫= int_) as [l|]; [|done].
  destruct (getitem header "X-RateLimit-Remaining" ≫= int_) as [r|]; [|done].
  destruct (getitem header "X-RateLimit-Reset" ≫= float_) as [rs|]; [|done].
  destruct (getitem header "X-RateLimit-Reset-After" ≫= float_) as [ra|]; [|done].
  simpl. by intros [= <-].
Qed.

Lemma getitem_int header key z :
  getitem header key ≫= int_ = Return z -> header !! key ≫= int_of = Some z.
Proof.
  unfold getitem, int_. destruct (header !! key) as [s|]; simpl; [|done].
  destruct (int_of s); simpl; congruence.
Qed.

(** The integers of a built record are the ones the headers carry. *)
Lemma Bucket_of_header_ints header now bucket :
  Bucket_of_header header now = Return bucket ->
  header !! "X-RateLimit-Limit" ≫= int_of = Some (limit bucket) /\
  header !! "X-RateLimit-Remaining" ≫= int_of = Some (remaining bucket).
Proof.
  unfold Bucket_of_header.
  destruct (getitem header "X-RateLimit-Limit" ≫= int_) as [l|] eqn:Hl; [|done].
  destruct (getitem header "X-RateLimit-Remaining" ≫= int_) as [r|] eqn:Hr; [|done].
  destruct (getitem header "X-RateLimit-Reset" ≫= float_) as [rs|]; [|done].
  destruct (getitem header "X-RateLimit-Reset-After" ≫= float_) as [ra|]; [|done].
  simpl. intros [= <-]. simpl. split; by apply getitem_int.
Qed.

End save_response_bucket_facts.

Section wait_until_not_ratelimited_facts.

Implicit Types (self : RateLimiter) (endpoint bucket_id : string).
Implicit Types (method : HttpCallable) (bucket : Bucket).

Lemma wait_unmapped self endpoint method cur_time :
  bucket_map self !! (endpoint, method) = None ->
  wait_until_not_ratelimited self endpoint method cur_time = Return Immediate.
Proof. intros Hnone. unfold wait_until_not_ratelimited. by rewrite Hnone. Qed.

Lemma wait_not_exhausted self endpoint method cur_time bucket_id bucket :
  bucket_map self !! (endpoint, method) = Some bucket_id ->
  buckets self !! bucket_id = Some bucket ->
  remaining bucket <> 0 ->
  wait_until_not_ratelimited self endpoint method cur_time = Return Immediate.
Proof.
  intros Hmap Hbucket Hrem. unfold wait_until_not_ratelimited.
  rewrite Hmap, Hbucket. by apply Z.eqb_neq in Hrem as ->.
Qed.

(** What the code awaits for an exhausted bucket: the time elapsed since the
    record was cached, plus [reset_after]. *)
Lemma wait_exhausted self endpoint method cur_time bucket_id bucket :
  bucket_map self !! (endpoint, method) = Some bucket_id ->
  buckets self !! bucket_id = Some bucket ->
  remaining bucket = 0 ->
  wait_until_not_ratelimited self endpoint method cur_time =
    Return (Slept (cur_time - time_cached bucket + reset_after bucket)%float).
Proof.
  intros Hmap Hbucket Hrem. unfold wait_until_not_ratelimited.
  by rewrite Hmap, Hbucket, Hrem.
Qed.

Lemma wait_dangling self endpoint method cur_time bucket_id :
  bucket_map self !! (endpoint, method) = Some bucket_id ->
  buckets self !! bucket_id = None ->
  wait_until_not_ratelimited self endpoint method cur_time =
    Raise (KeyError bucket_id).
Proof.
  intros Hmap Hbucket. unfold wait_until_not_ratelimited.
  by rewrite Hmap, Hbucket.
Qed.

End wait_until_not_ratelimited_facts.

(** Two binary64 numbers that compare unequal are different. *)
Lemma float_eqb_neq (x y : float) :
  PrimFloat.eqb x x = true -> PrimFloat.eqb x y = false -> x <> y.
Proof. intros Hxx Hxy ->. congruence. Qed.

(** * The claims about [wait_until_not_ratelimited] and [save_response_bucket] *)

(** C1.  The claim: for a route whose bucket has [remaining == 0], [acquire]
    suspends for exactly [max(0, cached_at + reset_after - now)].  The code
    awaits [sleep(now - cached_at + reset_after)]: the elapsed time is added,
    not subtracted.  Scenario A: the record is cached at [t = 0] with
    [reset_after = 2.0]; at [t = 0.5] the call sleeps 2.5 s, and the claimed
    wait is 1.5 s. *)
Theorem C1_scenario_A_sleeps_elapsed_plus_reset_after :
  buckets scenario_A !! "b1" = Some scenario_A_bucket /\
  wait_until_not_ratelimited scenario_A "/channels/{id}" GET 0.5
    = Return (Slept 2.5) /\
  suspended_for (Slept 2.5) = 2.5%float /\
  spec_wait scenario_A_bucket 0.5 = 1.5%float /\
  2.5%float <> 1.5%float.
Proof.
  split; [by vm_compute|].
  split; [by vm_compute|].
  split; [by vm_compute|].
  split; [by vm_compute|].
  by apply float_eqb_neq.
Qed.

(** C4.  For a route whose bucket record has [remaining > 0],
    [wait_until_not_ratelimited] returns without awaiting anything. *)
Theorem C4_remaining_positive_returns_immediately
    (self : RateLimiter) (endpoint : string) (method : HttpCallable)
    (cur_time : float) (bucket_id : string) (bucket : Bucket) :
  bucket_map self !! (endpoint, method) = Some bucket_id ->
  buckets self !! bucket_id = Some bucket ->
  0 < remaining bucket ->
  wait_until_not_ratelimited self endpoint method cur_time = Return Immediate.
Proof.
  intros Hmap Hbucket Hpos.
  apply (wait_not_exhausted _ _ _ _ bucket_id bucket); [done | done | lia].
Qed.

Lemma C4_remaining_positive_witness :
  let self := (save_response_bucket (H := decimal) __init__ "/channels/{id}" GET
                 (headers "b1" "5" "3" "2.0" "2.0") 0).1 in
  wait_until_not_ratelimited self "/channels/{id}" GET 0.5 = Return Immediate.
Proof.
  intros self.
  apply (C4_remaining_positive_returns_immediately self "/channels/{id}" GET 0.5 "b1"
           {| limit := 5; remaining := 3; reset := 2; reset_after := 2;
              time_cached := 0 |}).
  - vm_compute. reflexivity.
  - vm_compute. reflexivity.
  - simpl. lia.
Defined.

(** C7.  A response without an [X-RateLimit-Bucket] entry leaves the limiter
    as it was: [save_response_bucket] returns normally, both dictionaries are
    unchanged, an unmetered route stays unmetered, and afterwards every route
    without a bucket mapping passes [wait_until_not_ratelimited] without
    awaiting anything. *)
Theorem C7_no_bucket_id_is_a_noop `{Builtins}
    (self : RateLimiter) (endpoint : string) (method : HttpCallable)
    (header : gmap string string) (now : float) :
  header !! "X-RateLimit-Bucket" = None ->
  let self' := (save_response_bucket self endpoint method header now).1 in
  save_response_bucket self endpoint method header now = (self, Return tt) /\
  bucket_map self' = bucket_map self /\
  buckets self' = buckets self /\
  (bucket_map self !! (endpoint, method) = None ->
   bucket_map self' !! (endpoint, method) = None) /\
  (forall endpoint' method' cur_time,
     bucket_map self' !! (endpoint', method') = None ->
     wait_until_not_ratelimited self' endpoint' method' cur_time
       = Return Immediate).
Proof.
  intros Hnone self'. subst self'.
  rewrite (save_without_bucket _ _ _ _ _ Hnone). simpl.
  repeat split; try done.
  intros endpoint' method' cur_time Hunmapped. by apply wait_unmapped.
Qed.

Lemma C7_no_bucket_id_witness :
  save_response_bucket (H := decimal) scenario_A "/gateway" GET
    global_429_header 1 = (scenario_A, Return tt) /\
  wait_until_not_ratelimited scenario_A "/gateway" GET 1.5 = Return Immediate.
Proof.
  destruct (C7_no_bucket_id_is_a_noop (H := decimal) scenario_A "/gateway" GET
              global_429_header 1) as (Hsave & _ & _ & _ & Hwait).
  - vm_compute. reflexivity.
  - split; [exact Hsave|].
    rewrite Hsave in Hwait. apply Hwait. vm_compute. reflexivity.
Defined.

(** C9.  Two distinct routes share a bucket id.  When a response observed on
    the first route records [remaining == 0] for that bucket, the next
    [wait_until_not_ratelimited] on the second route awaits [sleep] too (for
    the time elapsed since that response plus its [reset_after], as the code
    computes it). *)
Theorem C9_shared_bucket_suspends_other_route `{Builtins}
    (self : RateLimiter) (endpoint1 endpoint2 : string)
    (method1 method2 : HttpCallable) (header : gmap string string)
    (now cur_time : float) (bucket_id : string) (bucket : Bucket) :
  (endpoint1, method1) <> (endpoint2, method2) ->
  bucket_map self !! (endpoint2, method2) = Some bucket_id ->
  header !! "X-RateLimit-Bucket" = Some bucket_id ->
  truthy bucket_id = true ->
  Bucket_of_header header now = Return bucket ->
  remaining bucket = 0 ->
  let self' := (save_response_bucket self endpoint1 method1 header now).1 in
  bucket_map self' !! (endpoint1, method1) = Some bucket_id /\
  bucket_map self' !! (endpoint2, method2) = Some bucket_id /\
  wait_until_not_ratelimited self' endpoint2 method2 cur_time
    = Return (Slept (cur_time - now + reset_after bucket)%float).
Proof.
  intros Hroutes Hmap Hid Htrue Hbucket Hrem self'. subst self'.
  rewrite (save_returns _ _ _ _ _ _ _ Hid Htrue Hbucket). simpl.
  assert (Hmap' : <[(endpoint1, method1) := bucket_id]> (bucket_map self)
                    !! (endpoint2, method2) = Some bucket_id)
    by (by rewrite lookup_insert_ne).
  split; [apply lookup_insert_eq|]. split; [exact Hmap'|].
  rewrite <- (Bucket_of_header_time_cached _ _ _ Hbucket).
  apply (wait_exhausted _ _ _ _ bucket_id bucket); [exact Hmap' | | exact Hrem].
  simpl. apply lookup_insert_eq.
Qed.

Lemma C9_shared_bucket_witness :
  let both_mapped :=
    run (H := decimal) __init__
      [observe "/channels/{id}" GET (headers "b1" "5" "3" "2.0" "2.0") 0;
       observe "/channels/{id}/messages" POST (headers "b1" "5" "2" "2.0" "2.0") 0] in
  let exhausted :=
    (save_response_bucket (H := decimal) both_mapped "/channels/{id}" GET
       (headers "b1" "5" "0" "3.0" "2.0") 1).1 in
  wait_until_not_ratelimited exhausted "/channels/{id}/messages" POST 1.5
    = Return (Slept 2.5).
Proof.
  intros both_mapped exhausted.
  apply (C9_shared_bucket_suspends_other_route (H := decimal) both_mapped
           "/channels/{id}" "/channels/{id}/messages" GET POST
           (headers "b1" "5" "0" "3.0" "2.0") 1 1.5 "b1"
           {| limit := 5; remaining := 0; reset := 3; reset_after := 2;
              time_cached := 1 |}).
  - discriminate.
  - vm_compute. reflexivity.
  - vm_compute. reflexivity.
  - reflexivity.
  - vm_compute. reflexivity.
  - reflexivity.
Defined.

(** C2, as the specification states it, fails on the code.  A 429 with global
    scope and [Retry-After: 1.0] is observed at [t = 0], so the specification's
    lockout lasts until [t = 1.0] and is active at [t = 0.25]; yet at [t = 0.25]
    a route whose bucket has [remaining = 3] and a route without any bucket
    both pass without awaiting anything. *)
Lemma C2_global_lockout_not_honoured :
  let self :=
    run (H := decimal) __init__
      [observe "/channels/{id}" GET (headers "b1" "5" "3" "2.0" "2.0") 0;
       observe "/gateway" GET global_429_header 0] in
  spec_global_active (spec_global_until 0 1) 0.25 = true /\
  (exists bucket, bucket_map self !! ("/channels/{id}", GET) = Some "b1" /\
                  buckets self !! "b1" = Some bucket /\ remaining bucket = 3) /\
  wait_until_not_ratelimited self "/channels/{id}" GET 0.25 = Return Immediate /\
  bucket_map self !! ("/users/@me", GET) = None /\
  wait_until_not_ratelimited self "/users/@me" GET 0.25 = Return Immediate.
Proof.
  intros self.
  split; [by vm_compute|].
  split.
  { exists {| limit := 5; remaining := 3; reset := 2; reset_after := 2;
              time_cached := 0 |}.
    by vm_compute. }
  split; [by vm_compute|].
  split; by vm_compute.
Qed.

(** C2, amended.  The limiter keeps no global lockout.  Observing a response
    that names no bucket (such as a 429 with global scope) changes nothing:
    afterwards [wait_until_not_ratelimited] does on every route what it did
    before, and it returns at once for a route without a bucket and for a
    route whose bucket has [remaining > 0]. *)
Theorem C2_bucketless_rejection_delays_no_route `{Builtins}
    (self : RateLimiter) (endpoint : string) (method : HttpCallable)
    (header : gmap string string) (now : float) :
  header !! "X-RateLimit-Bucket" = None ->
  let self' := (save_response_bucket self endpoint method header now).1 in
  (forall endpoint' method' cur_time,
     wait_until_not_ratelimited self' endpoint' method' cur_time
       = wait_until_not_ratelimited self endpoint' method' cur_time) /\
  (forall endpoint' method' cur_time,
     bucket_map self !! (endpoint', method') = None ->
     wait_until_not_ratelimited self' endpoint' method' cur_time
       = Return Immediate) /\
  (forall endpoint' method' cur_time bucket_id bucket,
     bucket_map self !! (endpoint', method') = Some bucket_id ->
     buckets self !! bucket_id = Some bucket ->
     0 < remaining bucket ->
     wait_until_not_ratelimited self' endpoint' method' cur_time
       = Return Immediate).
Proof.
  intros Hnone self'. subst self'.
  rewrite (save_without_bucket _ _ _ _ _ Hnone). simpl.
  split; [done|]. split.
  - intros endpoint' method' cur_time Hunmapped. by apply wait_unmapped.
  - intros endpoint' method' cur_time bucket_id bucket Hmap Hbucket Hpos.
    apply (wait_not_exhausted _ _ _ _ bucket_id bucket); [done | done | lia].
Qed.

Lemma C2_bucketless_rejection_witness :
  let before :=
    (save_response_bucket (H := decimal) __init__ "/channels/{id}" GET
       (headers "b1" "5" "3" "2.0" "2.0") 0).1 in
  let after :=
    (save_response_bucket (H := decimal) before "/gateway" GET
       global_429_header 0).1 in
  wait_until_not_ratelimited after "/users/@me" GET 0.25 = Return Immediate.
Proof.
  intros before after.
  destruct (C2_bucketless_rejection_delays_no_route (H := decimal) before
              "/gateway" GET global_429_header 0) as (_ & Hunmapped & _).
  - vm_compute. reflexivity.
  - apply Hunmapped. vm_compute. reflexivity.
Defined.

(** C3, as the specification states it, fails on the code: the second of two
    calls with the same headers stores a record with a new [time_cached], so
    the record after the second call is not the record after the first. *)
Lemma C3_second_observe_changes_record :
  let first :=
    (save_response_bucket (H := decimal) __init__ "/channels/{id}" GET
       scenario_A_header 0).1 in
  let second :=
    (save_response_bucket (H := decimal) first "/channels/{id}" GET
       scenario_A_header 1).1 in
  buckets first !! "b1" = Some scenario_A_bucket /\
  buckets second !! "b1" <> buckets first !! "b1".
Proof.
  intros first second. split; [by vm_compute|].
  vm_compute. intros Heq.
  apply (f_equal (fun o => match o with Some b => time_cached b | None => 0%float end))
    in Heq.
  revert Heq. by apply float_eqb_neq.
Qed.

(** C3, amended.  Two calls in succession with the same headers leave the
    limiter as one call at the second call's time leaves it.  Every record
    stored after the first call is still stored after the second with the
    same [limit], [remaining], [reset] and [reset_after]; when the second call
    returns normally on headers naming bucket [b], the record of [b] carries
    the second call's clock reading as [time_cached].  The limiter is
    unchanged when both calls read the same clock value. *)
Theorem C3_observe_twice_is_observe_at_later_time `{Builtins}
    (self : RateLimiter) (endpoint : string) (method : HttpCallable)
    (header : gmap string string) (t1 t2 : float) :
  let first := (save_response_bucket self endpoint method header t1).1 in
  let second := save_response_bucket first endpoint method header t2 in
  second.1 = (save_response_bucket self endpoint method header t2).1 /\
  (forall bucket_id r1,
     buckets first !! bucket_id = Some r1 ->
     exists r2, buckets second.1 !! bucket_id = Some r2 /\
       limit r2 = limit r1 /\ remaining r2 = remaining r1 /\
       reset r2 = reset r1 /\ reset_after r2 = reset_after r1) /\
  (forall bucket_id,
     header !! "X-RateLimit-Bucket" = Some bucket_id ->
     truthy bucket_id = true ->
     second.2 = Return tt ->
     exists r2, buckets second.1 !! bucket_id = Some r2 /\ time_cached r2 = t2) /\
  (t1 = t2 -> second.1 = first).
Proof.
  intros first second. subst first second.
  unfold save_response_bucket.
  destruct (header !! "X-RateLimit-Bucket") as [b|] eqn:Hid; simpl.
  2:{ split; [done|]. split; [by eauto 10|]. by split. }
  destruct (truthy b) eqn:Htrue; simpl.
  2:{ split; [done|]. split; [by eauto 10|]. split; [|done].
      intros bucket_id [= <-]. congruence. }
  rewrite (Bucket_of_header_clock header t1 t2).
  destruct (Bucket_of_header header t1) as [b1|e] eqn:Hb1; simpl.
  - rewrite !insert_insert_eq. split; [done|]. split; [|split].
    + intros bucket_id r1.
      destruct (decide (b = bucket_id)) as [->|Hne].
      * rewrite !lookup_insert_eq. intros [= <-]. by eexists.
      * rewrite !lookup_insert_ne by done. by eauto 10.
    + intros bucket_id [= <-] _ _. rewrite lookup_insert_eq. by eexists.
    + intros <-. pose proof (Bucket_of_header_time_cached _ _ _ Hb1) as Ht.
      destruct b1; simpl in *. by subst.
  - rewrite !insert_insert_eq. split; [done|]. split; [by eauto 10|]. by split.
Qed.

Lemma C3_observe_twice_witness :
  let first :=
    (save_response_bucket (H := decimal) __init__ "/channels/{id}" GET
       scenario_A_header 0).1 in
  (save_response_bucket (H := decimal) first "/channels/{id}" GET
     scenario_A_header 1).1
  = (save_response_bucket (H := decimal) __init__ "/channels/{id}" GET
       scenario_A_header 1).1.
Proof.
  intros first.
  exact (proj1 (C3_observe_twice_is_observe_at_later_time (H := decimal) __init__
                  "/channels/{id}" GET scenario_A_header 0 1)).
Defined.

(** ** Bounds of the stored records *)

Section bounds.
Context `{Builtins}.

Lemma Bucket_of_header_in_bounds header now bucket :
  header_in_bounds header = true ->
  Bucket_of_header header now = Return bucket ->
  in_bounds bucket = true.
Proof.
  intros Hheader Hbucket.
  destruct (Bucket_of_header_ints _ _ _ Hbucket) as [Hl Hr].
  unfold header_in_bounds in Hheader. rewrite Hl, Hr in Hheader.
  exact Hheader.
Qed.

Lemma step_in_bounds self c :
  call_in_bounds c = true -> all_in_bounds self -> all_in_bounds (step self c).
Proof.
  intros Hcall Hself. destruct c as [endpoint method header now|]; [|done].
  simpl in *. unfold save_response_bucket.
  destruct (header !! "X-RateLimit-Bucket") as [b|]; [|done].
  destruct (truthy b); [|done].
  destruct (Bucket_of_header header now) as [bucket|e] eqn:Hbucket; [|done].
  unfold all_in_bounds. simpl. apply map_Forall_insert_2; [|done].
  by apply (Bucket_of_header_in_bounds header now).
Qed.

Lemma run_in_bounds calls : forall self,
  forallb call_in_bounds calls = true ->
  all_in_bounds self -> all_in_bounds (run self calls).
Proof.
  induction calls as [|c calls IH]; intros self Hcalls Hself; [done|].
  simpl in Hcalls. apply andb_prop in Hcalls as [Hc Hcalls].
  simpl. apply IH; [done|]. by apply step_in_bounds.
Qed.

End bounds.

(** C5, as the specification states it, fails on the code: the server's
    numbers are stored as they come.  A response with [Limit: 5] and
    [Remaining: 7] leaves a record whose [remaining] exceeds its [limit]. *)
Lemma C5_stored_remaining_exceeds_limit :
  ~ (forall self, reachable (H := decimal) self ->
     forall bucket_id bucket, buckets self !! bucket_id = Some bucket ->
     0 <= remaining bucket /\ remaining bucket <= limit bucket).
Proof.
  intros Hclaim.
  destruct (Hclaim
    (run (H := decimal) __init__
       [observe "/channels/{id}" GET (headers "b1" "5" "7" "2.0" "2.0") 0])
    (ex_intro _ _ eq_refl) "b1"
    {| limit := 5; remaining := 7; reset := 2; reset_after := 2;
       time_cached := 0 |}) as [_ Hle].
  - by vm_compute.
  - simpl in Hle. lia.
Qed.

(** C5, amended.  The limiter stores the [Limit] and [Remaining] of each
    response as the server sent them.  So in every state reached by calls
    whose observed responses all satisfy [0 <= Remaining <= Limit], every
    stored record satisfies [0 <= remaining <= limit]. *)
Theorem C5_records_in_bounds_when_responses_are `{Builtins}
    (calls : list call) (bucket_id : string) (bucket : Bucket) :
  forallb call_in_bounds calls = true ->
  buckets (run __init__ calls) !! bucket_id = Some bucket ->
  0 <= remaining bucket /\ remaining bucket <= limit bucket.
Proof.
  intros Hcalls Hbucket.
  assert (Hall : all_in_bounds (run __init__ calls)).
  { apply run_in_bounds; [done|]. unfold all_in_bounds. simpl.
    apply map_Forall_empty. }
  specialize (Hall bucket_id bucket Hbucket). unfold in_bounds in Hall.
  apply andb_prop in Hall as [Hlo Hhi]. lia.
Qed.

Lemma C5_records_in_bounds_witness :
  0 <= remaining scenario_A_bucket /\
  remaining scenario_A_bucket <= limit scenario_A_bucket.
Proof.
  apply (C5_records_in_bounds_when_responses_are (H := decimal)
           [observe "/channels/{id}" GET scenario_A_header 0;
            acquire "/channels/{id}" GET 0.5] "b1" scenario_A_bucket).
  - vm_compute. reflexivity.
  - vm_compute. reflexivity.
Defined.

(** C8, as the specification states it, fails on the code: a call whose
    headers name bucket ["b1"] but lack [X-RateLimit-Remaining] raises, and
    the record stored for ["b1"] is still the one of the earlier response
    (its [limit] is 5, not the 9 of this response). *)
Lemma C8_raising_call_keeps_previous_record :
  let header := <["X-RateLimit-Bucket" := "b1"]> (<["X-RateLimit-Limit" := "9"]> ∅) in
  let result :=
    save_response_bucket (H := decimal) scenario_A "/channels/{id}" GET header 1 in
  header !! "X-RateLimit-Bucket" = Some "b1" /\
  result.2 = Raise (KeyError "X-RateLimit-Remaining") /\
  buckets result.1 !! "b1" = Some scenario_A_bucket.
Proof. intros header result. repeat split; by vm_compute. Qed.

(** C8, amended.  A call whose headers name bucket [b] and which returns
    normally stores for [b] exactly the record built from that response's
    headers and the clock, whatever was stored before, and touches no other
    record; a call that raises leaves every record as it was.  Hence, of two
    successive calls for the same bucket, the record of a later call that
    returns normally is the one stored. *)
Theorem C8_observe_replaces_whole_record `{Builtins}
    (self : RateLimiter) (endpoint : string) (method : HttpCallable)
    (header : gmap string string) (now : float) (bucket_id : string) :
  header !! "X-RateLimit-Bucket" = Some bucket_id ->
  truthy bucket_id = true ->
  let self' := (save_response_bucket self endpoint method header now).1 in
  (forall bucket, Bucket_of_header header now = Return bucket ->
     buckets self' !! bucket_id = Some bucket /\
     (forall other, other <> bucket_id ->
        buckets self' !! other = buckets self !! other)) /\
  (forall e, Bucket_of_header header now = Raise e ->
     buckets self' = buckets self) /\
  (forall bucket endpoint0 method0 header0 t0,
     Bucket_of_header header now = Return bucket ->
     buckets (save_response_bucket
                (save_response_bucket self endpoint0 method0 header0 t0).1
                endpoint method header now).1 !! bucket_id = Some bucket).
Proof.
  intros Hid Htrue self'. subst self'. split; [|split].
  - intros bucket Hbucket.
    rewrite (save_returns _ _ _ _ _ _ _ Hid Htrue Hbucket). simpl.
    split; [apply lookup_insert_eq|].
    intros other Hother. by rewrite lookup_insert_ne.
  - intros e Hraise. by rewrite (save_raises _ _ _ _ _ _ _ Hid Htrue Hraise).
  - intros bucket endpoint0 method0 header0 t0 Hbucket.
    rewrite (save_returns _ _ _ _ _ _ _ Hid Htrue Hbucket). simpl.
    apply lookup_insert_eq.
Qed.

Lemma C8_observe_replaces_witness :
  buckets (save_response_bucket (H := decimal) scenario_A "/channels/{id}" GET
             (headers "b1" "9" "4" "7.5" "1.5") 6).1 !! "b1"
  = Some {| limit := 9; remaining := 4; reset := 7.5; reset_after := 1.5;
            time_cached := 6 |}.
Proof.
  destruct (C8_observe_replaces_whole_record (H := decimal) scenario_A
              "/channels/{id}" GET (headers "b1" "9" "4" "7.5" "1.5") 6 "b1")
    as (Hreturn & _ & _).
  - vm_compute. reflexivity.
  - reflexivity.
  - apply Hreturn. vm_compute. reflexivity.
Defined.

(** C10.  The claim: every bucket id in [bucket_map] is a key of [buckets],
    so the lookup [self.buckets[bucket_id]] cannot fail.  The code writes
    [bucket_map] before it builds the [Bucket]: a response that names its
    bucket but lacks [X-RateLimit-Limit] raises [KeyError] after the route
    was mapped, and the next [wait_until_not_ratelimited] on that route
    raises [KeyError] at the record lookup. *)
Theorem C10_mapped_bucket_id_without_record :
  let result :=
    save_response_bucket (H := decimal) __init__ "/channels/{id}" GET
      bucket_only_header 0 in
  result.2 = Raise (KeyError "X-RateLimit-Limit") /\
  reachable (H := decimal) result.1 /\
  bucket_map result.1 !! ("/channels/{id}", GET) = Some "b1" /\
  buckets result.1 !! "b1" = None /\
  wait_until_not_ratelimited result.1 "/channels/{id}" GET 0.5
    = Raise (KeyError "b1").
Proof.
  intros result. split; [by vm_compute|]. split.
  { by exists [observe "/channels/{id}" GET bucket_only_header 0]. }
  repeat split; by vm_compute.
Qed.

(** * The claim about [HttpApi.get] *)

(** C6, as the specification states it, fails on the code.  The server
    rejects the first request with 429 and would accept a second one;
    [HttpApi.get] raises on that first 429, after a single request, and the
    accepting response is never asked for. *)
Lemma C6_first_429_raises_without_retry :
  let self := http.__init__ "9" "token" in
  let result := http.get self "users/@me" http.rejects_once in
  result.2 = Raise (Exception 429) /\
  http.sent result.1
    = [("https://discord.com/api/v9/users/@me", http.header self)] /\
  http.pending result.1
    = [ {| http.status_code := 200; http.json := Return "{}" |} ].
Proof. intros self result. repeat split; by vm_compute. Qed.

(** C6, amended.  When the response to the request has a status other than
    200 (a 429 included), [HttpApi.get] sends nothing more: after that one
    request it raises [Exception] carrying the status code.  There is no
    retry, no retry budget and no separate rate-limit error. *)
Theorem C6_rejected_request_raises_at_once {J : Type}
    (self : http.HttpApi) (path : string) (net : http.Network J)
    (res : http.Response J) (rest : list (http.Response J)) :
  http.pending net = res :: rest ->
  http.status_code res <> 200 ->
  http.get self path net
    = ({| http.sent :=
            http.sent net ++ [(http.endpoint self ++ "/" ++ path, http.header self)];
          http.pending := rest |},
       Raise (Exception (http.status_code res))).
Proof.
  intros Hpending Hstatus. unfold http.get, http.requests_get.
  rewrite Hpending. by apply Z.eqb_neq in Hstatus as ->.
Qed.

Lemma C6_rejected_request_witness :
  (http.get (http.__init__ "9" "token") "users/@me" http.rejects_once).2
  = Raise (Exception 429).
Proof.
  rewrite (C6_rejected_request_raises_at_once (http.__init__ "9" "token")
             "users/@me" http.rejects_once
             {| http.status_code := 429; http.json := Return "{}" |}
             [ {| http.status_code := 200; http.json := Return "{}" |} ]).
  - reflexivity.
  - reflexivity.
  - simpl. lia.
Defined.

(** * Further properties of the code *)

(** X1.  What the code awaits for an exhausted bucket: for a route whose
    bucket record has [remaining == 0], [wait_until_not_ratelimited] awaits
    [sleep(cur_time - time_cached + reset_after)], the time elapsed since the
    record was cached plus its [reset_after]. *)
Theorem exhausted_bucket_sleeps_elapsed_plus_reset_after
    (self : RateLimiter) (endpoint : string) (method : HttpCallable)
    (cur_time : float) (bucket_id : string) (bucket : Bucket) :
  bucket_map self !! (endpoint, method) = Some bucket_id ->
  buckets self !! bucket_id = Some bucket ->
  remaining bucket = 0 ->
  wait_until_not_ratelimited self endpoint method cur_time
    = Return (Slept (cur_time - time_cached bucket + reset_after bucket)%float).
Proof. apply wait_exhausted. Qed.

Lemma exhausted_bucket_sleeps_witness :
  wait_until_not_ratelimited scenario_A "/channels/{id}" GET 4
    = Return (Slept 6).
Proof.
  apply (exhausted_bucket_sleeps_elapsed_plus_reset_after scenario_A
           "/channels/{id}" GET 4 "b1" scenario_A_bucket).
  - vm_compute. reflexivity.
  - vm_compute. reflexivity.
  - reflexivity.
Defined.

Section mapped_ids.
Context `{Builtins}.

Lemma step_mapped_ids_stored self endpoint method header now :
  returned (save_response_bucket self endpoint method header now).2 = true ->
  mapped_ids_stored self ->
  mapped_ids_stored (save_response_bucket self endpoint method header now).1.
Proof.
  unfold save_response_bucket.
  destruct (header !! "X-RateLimit-Bucket") as [b|]; [|done].
  destruct (truthy b); [|done].
  destruct (Bucket_of_header header now) as [bucket|e]; [|done].
  intros _ Hself. unfold mapped_ids_stored. simpl.
  apply map_Forall_insert_2.
  - rewrite lookup_insert_eq. by eexists.
  - intros route id Hroute. apply lookup_insert_is_Some'. right.
    by apply (Hself route).
Qed.

Lemma run_mapped_ids_stored calls : forall self,
  observes_return self calls = true ->
  mapped_ids_stored self -> mapped_ids_stored (run self calls).
Proof.
  induction calls as [|c calls IH]; intros self Hcalls Hself; [done|].
  simpl in Hcalls. apply andb_prop in Hcalls as [Hc Hcalls].
  simpl. apply IH; [done|].
  destruct c as [endpoint method header now|]; [|done].
  by apply step_mapped_ids_stored.
Qed.

End mapped_ids.

(** X2.  In every state reached through calls of which no
    [save_response_bucket] raised, every bucket id in [bucket_map] has a
    record in [buckets], and [wait_until_not_ratelimited] returns normally on
    every route. *)
Theorem mapped_ids_stored_while_observes_return `{Builtins}
    (calls : list call) :
  observes_return __init__ calls = true ->
  mapped_ids_stored (run __init__ calls) /\
  (forall endpoint method cur_time,
     returned (wait_until_not_ratelimited (run __init__ calls)
                 endpoint method cur_time) = true).
Proof.
  intros Hcalls.
  assert (Hstored : mapped_ids_stored (run __init__ calls)).
  { apply run_mapped_ids_stored; [done|].
    unfold mapped_ids_stored. simpl. apply map_Forall_empty. }
  split; [done|].
  intros endpoint method cur_time. unfold wait_until_not_ratelimited.
  destruct (bucket_map (run __init__ calls) !! (endpoint, method))
    as [bucket_id|] eqn:Hmap; [|done].
  destruct (Hstored _ _ Hmap) as [bucket ->].
  by destruct (remaining bucket =? 0).
Qed.

Lemma mapped_ids_stored_witness :
  returned (wait_until_not_ratelimited
              (run (H := decimal) __init__
                 [observe "/channels/{id}" GET scenario_A_header 0;
                  observe "/gateway" GET global_429_header 1])
              "/channels/{id}" GET 1.5) = true.
Proof.
  apply (mapped_ids_stored_while_observes_return (H := decimal)
           [observe "/channels/{id}" GET scenario_A_header 0;
            observe "/gateway" GET global_429_header 1]).
  vm_compute. reflexivity.
Defined.

(** X3.  On a response with status 200, [HttpApi.get] gives what
    [res.json()] gives, after that one request. *)
Theorem get_returns_json_on_200 {J : Type}
    (self : http.HttpApi) (path : string) (net : http.Network J)
    (res : http.Response J) (rest : list (http.Response J)) :
  http.pending net = res :: rest ->
  http.status_code res = 200 ->
  http.get self path net
    = ({| http.sent :=
            http.sent net ++ [(http.endpoint self ++ "/" ++ path, http.header self)];
          http.pending := rest |},
       http.json res).
Proof.
  intros Hpending Hstatus. unfold http.get, http.requests_get.
  by rewrite Hpending, Hstatus.
Qed.

Lemma get_returns_json_witness :
  (http.get (http.__init__ "9" "token") "users/@me"
     {| http.sent := [];
        http.pending := [ {| http.status_code := 200; http.json := Return "{}" |} ] |}).2
  = Return "{}".
Proof.
  rewrite (get_returns_json_on_200 (http.__init__ "9" "token") "users/@me"
             {| http.sent := [];
                http.pending := [ {| http.status_code := 200; http.json := Return "{}" |} ] |}
             {| http.status_code := 200; http.json := Return "{}" |} []).
  - reflexivity.
  - reflexivity.
  - reflexivity.
Defined.

(** * Further properties of [save_response_bucket] *)

Section save_response_bucket_effects.
Context `{Builtins}.

Implicit Types (self : RateLimiter) (header : gmap string string).
Implicit Types (endpoint bucket_id : string) (method : HttpCallable).

Lemma named_bucket_Some header bucket_id :
  named_bucket header = Some bucket_id <->
  header !! "X-RateLimit-Bucket" = Some bucket_id /\ truthy bucket_id = true.
Proof.
  unfold named_bucket.
  destruct (header !! "X-RateLimit-Bucket") as [b|]; [|by split; [|intros []]].
  destruct (truthy b) eqn:Hb; split.
  - by intros [= <-].
  - by intros [? _].
  - done.
  - intros [[= <-] Htrue]. congruence.
Qed.

Lemma save_unnamed self endpoint method header now :
  named_bucket header = None ->
  save_response_bucket self endpoint method header now = (self, Return tt).
Proof.
  unfold named_bucket, save_response_bucket.
  destruct (header !! "X-RateLimit-Bucket") as [b|]; [|done].
  by destruct (truthy b).
Qed.

(** The two shapes of the limiter after a call that names bucket [bucket_id]. *)
Lemma save_named self endpoint method header now bucket_id :
  named_bucket header = Some bucket_id ->
  save_response_bucket self endpoint method header now =
    match Bucket_of_header header now with
    | Return bucket =>
        ({| bucket_map := <[(endpoint, method) := bucket_id]> (bucket_map self);
            buckets := <[bucket_id := bucket]> (buckets self) |}, Return tt)
    | Raise e =>
        ({| bucket_map := <[(endpoint, method) := bucket_id]> (bucket_map self);
            buckets := buckets self |}, Raise e)
    end.
Proof.
  intros [Hid Htrue]%named_bucket_Some.
  destruct (Bucket_of_header header now) as [bucket|e] eqn:Hbucket.
  - by apply save_returns.
  - by apply save_raises.
Qed.

Lemma save_other_route self endpoint method header now route :
  route <> (endpoint, method) ->
  bucket_map (save_response_bucket self endpoint method header now).1 !! route
  = bucket_map self !! route.
Proof.
  intros Hroute.
  destruct (named_bucket header) as [b|] eqn:Hnamed;
    [|by rewrite (save_unnamed _ _ _ _ _ Hnamed)].
  rewrite (save_named _ _ _ _ _ _ Hnamed).
  destruct (Bucket_of_header header now); simpl; by rewrite lookup_insert_ne.
Qed.

Lemma save_other_bucket self endpoint method header now bucket_id :
  named_bucket header <> Some bucket_id ->
  buckets (save_response_bucket self endpoint method header now).1 !! bucket_id
  = buckets self !! bucket_id.
Proof.
  intros Hother.
  destruct (named_bucket header) as [b|] eqn:Hnamed;
    [|by rewrite (save_unnamed _ _ _ _ _ Hnamed)].
  rewrite (save_named _ _ _ _ _ _ Hnamed).
  destruct (Bucket_of_header header now); simpl; [|done].
  rewrite lookup_insert_ne; [done|congruence].
Qed.

Lemma save_route_named self endpoint method header now bucket_id :
  named_bucket header = Some bucket_id ->
  bucket_map (save_response_bucket self endpoint method header now).1
    !! (endpoint, method) = Some bucket_id.
Proof.
  intros Hnamed. rewrite (save_named _ _ _ _ _ _ Hnamed).
  destruct (Bucket_of_header header now); simpl; apply lookup_insert_eq.
Qed.

End save_response_bucket_effects.

(** X4.  [save_response_bucket] touches one route and one bucket: whatever
    the headers are and however the call ends, the mapping of every other
    route and the record of every bucket the response does not name are what
    they were, and a response that names no bucket changes nothing at all. *)
Theorem save_response_bucket_frame `{Builtins}
    (self : RateLimiter) (endpoint : string) (method : HttpCallable)
    (header : gmap string string) (now : float) :
  let self' := (save_response_bucket self endpoint method header now).1 in
  (forall route, route <> (endpoint, method) ->
     bucket_map self' !! route = bucket_map self !! route) /\
  (forall bucket_id, named_bucket header <> Some bucket_id ->
     buckets self' !! bucket_id = buckets self !! bucket_id) /\
  (named_bucket header = None -> self' = self).
Proof.
  intros self'. subst self'. split; [|split].
  - intros route Hroute. by apply save_other_route.
  - intros bucket_id Hother. by apply save_other_bucket.
  - intros Hnamed. by rewrite (save_unnamed _ _ _ _ _ Hnamed).
Qed.

(** X5.  A response that names a bucket maps its route to that bucket,
    replacing any earlier mapping of the route, even when the call raises
    because the record cannot be built. *)
Theorem route_mapped_to_named_bucket `{Builtins}
    (self : RateLimiter) (endpoint : string) (method : HttpCallable)
    (header : gmap string string) (now : float) (bucket_id : string) :
  named_bucket header = Some bucket_id ->
  bucket_map (save_response_bucket self endpoint method header now).1
    !! (endpoint, method) = Some bucket_id.
Proof. apply save_route_named. Qed.

Lemma route_mapped_to_named_bucket_witness :
  bucket_map (save_response_bucket (H := decimal) scenario_A "/channels/{id}" GET
                (<["X-RateLimit-Bucket" := "b2"]> ∅) 1).1
    !! ("/channels/{id}", GET) = Some "b2".
Proof.
  apply (route_mapped_to_named_bucket (H := decimal) scenario_A "/channels/{id}"
           GET (<["X-RateLimit-Bucket" := "b2"]> ∅) 1 "b2").
  vm_compute. reflexivity.
Defined.

Section save_response_bucket_errors.
Context `{Builtins}.

Implicit Types (header : gmap string string) (key : string) (x : exc).

Lemma getitem_int_raises header key x :
  getitem header key ≫= int_ = Raise x ->
  (header !! key = None /\ x = KeyError key) \/
  (exists v, header !! key = Some v /\ int_of v = None /\ x = ValueError v).
Proof.
  unfold getitem, int_. destruct (header !! key) as [v|]; simpl.
  - destruct (int_of v) eqn:Hv; [done|]. intros [= <-]. right. by exists v.
  - intros [= <-]. by left.
Qed.

Lemma getitem_float_raises header key x :
  getitem header key ≫= float_ = Raise x ->
  (header !! key = None /\ x = KeyError key) \/
  (exists v, header !! key = Some v /\ float_of v = None /\ x = ValueError v).
Proof.
  unfold getitem, float_. destruct (header !! key) as [v|]; simpl.
  - destruct (float_of v) eqn:Hv; [done|]. intros [= <-]. right. by exists v.
  - intros [= <-]. by left.
Qed.

Lemma getitem_int_returns header key z :
  header !! key ≫= int_of = Some z -> getitem header key ≫= int_ = Return z.
Proof.
  unfold getitem, int_. destruct (header !! key) as [v|]; simpl; [|done].
  by intros ->.
Qed.

Lemma getitem_float_returns header key z :
  header !! key ≫= float_of = Some z -> getitem header key ≫= float_ = Return z.
Proof.
  unfold getitem, float_. destruct (header !! key) as [v|]; simpl; [|done].
  by intros ->.
Qed.

End save_response_bucket_errors.

(** X6.  The only way [save_response_bucket] raises: the response names a
    bucket, and one of the four headers the record is built from is missing
    ([KeyError] with that header's name) or does not convert ([ValueError]
    with that header's value; [int] for the limit and the remaining count,
    [float] for the two reset headers).  When all four are present and
    convert, the call returns normally. *)
Theorem save_response_bucket_raises_only_for_its_headers `{Builtins}
    (self : RateLimiter) (endpoint : string) (method : HttpCallable)
    (header : gmap string string) (now : float) :
  (forall x,
     (save_response_bucket self endpoint method header now).2 = Raise x ->
     is_Some (named_bucket header) /\
     exists key, key ∈ bucket_fields /\
       ((header !! key = None /\ x = KeyError key) \/
        (exists v, header !! key = Some v /\ x = ValueError v /\
           if bool_decide (key ∈ ["X-RateLimit-Limit"; "X-RateLimit-Remaining"])
           then int_of v = None else float_of v = None))) /\
  (forall l r rs ra,
     header !! "X-RateLimit-Limit" ≫= int_of = Some l ->
     header !! "X-RateLimit-Remaining" ≫= int_of = Some r ->
     header !! "X-RateLimit-Reset" ≫= float_of = Some rs ->
     header !! "X-RateLimit-Reset-After" ≫= float_of = Some ra ->
     (save_response_bucket self endpoint method header now).2 = Return tt).
Proof.
  split.
  - intros x.
    destruct (named_bucket header) as [b|] eqn:Hnamed;
      [|by rewrite (save_unnamed _ _ _ _ _ Hnamed)].
    rewrite (save_named _ _ _ _ _ _ Hnamed).
    destruct (Bucket_of_header header now) as [bucket|e] eqn:Hbucket; [done|].
    simpl. intros [= ->]. split; [by eexists|].
    revert Hbucket. unfold Bucket_of_header.
    destruct (getitem header "X-RateLimit-Limit" ≫= int_) as [l|e1] eqn:Hl.
    2:{ simpl. intros [= ->]. exists "X-RateLimit-Limit".
        split; [set_solver|].
        destruct (getitem_int_raises _ _ _ Hl) as [?|(v & ? & ? & ?)];
          [by left|right; by exists v]. }
    destruct (getitem header "X-RateLimit-Remaining" ≫= int_) as [r|e2] eqn:Hr.
    2:{ simpl. intros [= ->]. exists "X-RateLimit-Remaining".
        split; [set_solver|].
        destruct (getitem_int_raises _ _ _ Hr) as [?|(v & ? & ? & ?)];
          [by left|right; by exists v]. }
    destruct (getitem header "X-RateLimit-Reset" ≫= float_) as [rs|e3] eqn:Hrs.
    2:{ simpl. intros [= ->]. exists "X-RateLimit-Reset".
        split; [set_solver|].
        destruct (getitem_float_raises _ _ _ Hrs) as [?|(v & ? & ? & ?)];
          [by left|right; by exists v]. }
    destruct (getitem header "X-RateLimit-Reset-After" ≫= float_) as [ra|e4] eqn:Hra;
      [done|].
    simpl. intros [= ->]. exists "X-RateLimit-Reset-After".
    split; [set_solver|].
    destruct (getitem_float_raises _ _ _ Hra) as [?|(v & ? & ? & ?)];
      [by left|right; by exists v].
  - intros l r rs ra Hl Hr Hrs Hra.
    destruct (named_bucket header) as [b|] eqn:Hnamed;
      [|by rewrite (save_unnamed _ _ _ _ _ Hnamed)].
    rewrite (save_named _ _ _ _ _ _ Hnamed). unfold Bucket_of_header.
    by rewrite (getitem_int_returns _ _ _ Hl), (getitem_int_returns _ _ _ Hr),
      (getitem_float_returns _ _ _ Hrs), (getitem_float_returns _ _ _ Hra).
Qed.

Lemma save_response_bucket_raises_witness :
  (save_response_bucket (H := decimal) __init__ "/channels/{id}" GET
     (headers "b1" "5" "0" "2.0" "2.0") 0).2 = Return tt.
Proof.
  apply (proj2 (save_response_bucket_raises_only_for_its_headers (H := decimal)
                  __init__ "/channels/{id}" GET (headers "b1" "5" "0" "2.0" "2.0") 0)
           5 0 2%float 2%float); vm_compute; reflexivity.
Defined.

(** X7.  After a response that names a bucket and whose record could be
    built, the next [wait_until_not_ratelimited] on the same route is decided
    by that response alone, whatever the limiter held before: it awaits
    [sleep(cur_time - now + reset_after)] when the response said
    [remaining == 0], and nothing otherwise. *)
Theorem acquire_after_observe_follows_last_response `{Builtins}
    (self : RateLimiter) (endpoint : string) (method : HttpCallable)
    (header : gmap string string) (now cur_time : float)
    (bucket_id : string) (bucket : Bucket) :
  named_bucket header = Some bucket_id ->
  Bucket_of_header header now = Return bucket ->
  wait_until_not_ratelimited
    (save_response_bucket self endpoint method header now).1
    endpoint method cur_time
  = Return (if remaining bucket =? 0
            then Slept (cur_time - now + reset_after bucket)%float
            else Immediate).
Proof.
  intros Hnamed Hbucket. rewrite (save_named _ _ _ _ _ _ Hnamed), Hbucket.
  unfold wait_until_not_ratelimited. simpl. rewrite !lookup_insert_eq.
  rewrite (Bucket_of_header_time_cached _ _ _ Hbucket).
  by destruct (remaining bucket =? 0).
Qed.

Lemma acquire_after_observe_witness :
  wait_until_not_ratelimited
    (save_response_bucket (H := decimal) scenario_A "/channels/{id}" GET
       (headers "b1" "5" "4" "9.0" "1.0") 8).1
    "/channels/{id}" GET 8.5
  = Return Immediate.
Proof.
  apply (acquire_after_observe_follows_last_response (H := decimal) scenario_A
           "/channels/{id}" GET (headers "b1" "5" "4" "9.0" "1.0") 8 8.5 "b1"
           {| limit := 5; remaining := 4; reset := 9; reset_after := 1;
              time_cached := 8 |}); vm_compute; reflexivity.
Defined.

(** * Properties of histories of calls *)

Section histories.
Context `{Builtins}.

Implicit Types (self : RateLimiter) (calls : list call) (c : call).

Lemma run_cons self c calls : run self (c :: calls) = run (step self c) calls.
Proof. done. Qed.

Lemma step_keeps_routes self c route :
  is_Some (bucket_map self !! route) -> is_Some (bucket_map (step self c) !! route).
Proof.
  destruct c as [endpoint method header now|]; [|done]. simpl.
  destruct (named_bucket header) as [b|] eqn:Hnamed;
    [|by rewrite (save_unnamed _ _ _ _ _ Hnamed)].
  rewrite (save_named _ _ _ _ _ _ Hnamed). intros Hroute.
  destruct (Bucket_of_header header now); simpl;
    apply lookup_insert_is_Some'; by right.
Qed.

Lemma step_keeps_buckets self c bucket_id :
  is_Some (buckets self !! bucket_id) -> is_Some (buckets (step self c) !! bucket_id).
Proof.
  destruct c as [endpoint method header now|]; [|done]. simpl.
  destruct (named_bucket header) as [b|] eqn:Hnamed;
    [|by rewrite (save_unnamed _ _ _ _ _ Hnamed)].
  rewrite (save_named _ _ _ _ _ _ Hnamed). intros Hbucket.
  destruct (Bucket_of_header header now); simpl; [|done].
  apply lookup_insert_is_Some'; by right.
Qed.

Lemma step_other_route self c endpoint method :
  names_bucket_on endpoint method c = false ->
  bucket_map (step self c) !! (endpoint, method) = bucket_map self !! (endpoint, method).
Proof.
  destruct c as [endpoint' method' header now|]; [|done]. simpl.
  intros Hc.
  destruct (decide ((endpoint, method) = (endpoint', method'))) as [Heq|Hne];
    [|by apply save_other_route].
  rewrite bool_decide_eq_true_2 in Hc by done. simpl in Hc.
  apply bool_decide_eq_false in Hc.
  destruct (named_bucket header) as [b|] eqn:Hnamed; [by destruct Hc; eexists|].
  by rewrite (save_unnamed _ _ _ _ _ Hnamed).
Qed.

(** Where a record of the limiter after one call comes from. *)
Lemma step_bucket_origin self c bucket_id bucket :
  buckets (step self c) !! bucket_id = Some bucket ->
  buckets self !! bucket_id = Some bucket \/
  exists endpoint method header now,
    c = observe endpoint method header now /\
    named_bucket header = Some bucket_id /\
    Bucket_of_header header now = Return bucket.
Proof.
  destruct c as [endpoint method header now|]; [|by left]. simpl.
  destruct (named_bucket header) as [b|] eqn:Hnamed;
    [|rewrite (save_unnamed _ _ _ _ _ Hnamed); by left].
  rewrite (save_named _ _ _ _ _ _ Hnamed).
  destruct (Bucket_of_header header now) as [built|e] eqn:Hbuilt; simpl;
    [|by left].
  destruct (decide (b = bucket_id)) as [->|Hne].
  - rewrite lookup_insert_eq. intros [= <-]. right.
    by exists endpoint, method, header, now.
  - rewrite lookup_insert_ne by done. by left.
Qed.

(** Where a mapping of the limiter after one call comes from. *)
Lemma step_route_origin self c endpoint method bucket_id :
  bucket_map (step self c) !! (endpoint, method) = Some bucket_id ->
  bucket_map self !! (endpoint, method) = Some bucket_id \/
  exists header now,
    c = observe endpoint method header now /\
    named_bucket header = Some bucket_id.
Proof.
  destruct c as [endpoint' method' header now|]; [|by left]. simpl.
  destruct (named_bucket header) as [b|] eqn:Hnamed;
    [|rewrite (save_unnamed _ _ _ _ _ Hnamed); by left].
  intros Hroute.
  destruct (decide ((endpoint', method') = (endpoint, method))) as [[= -> ->]|Hne].
  - rewrite (save_route_named _ _ _ _ _ _ Hnamed) in Hroute.
    injection Hroute as <-. right. by exists header, now.
  - left. rewrite <- Hroute. symmetry. by apply save_other_route.
Qed.

Lemma run_bucket_origin calls : forall self bucket_id bucket,
  buckets (run self calls) !! bucket_id = Some bucket ->
  buckets self !! bucket_id = Some bucket \/
  exists endpoint method header now,
    observe endpoint method header now ∈ calls /\
    named_bucket header = Some bucket_id /\
    Bucket_of_header header now = Return bucket.
Proof.
  induction calls as [|c calls IH]; intros self bucket_id bucket; [by left|].
  rewrite run_cons. intros Hrun.
  destruct (IH _ _ _ Hrun) as [Hstep|(e & m & h & t & Hin & Hrest)].
  - destruct (step_bucket_origin _ _ _ _ Hstep)
      as [Hself|(e & m & h & t & -> & Hrest)]; [by left|].
    right. exists e, m, h, t. split; [apply list_elem_of_here|done].
  - right. exists e, m, h, t. split; [by apply list_elem_of_further|done].
Qed.

Lemma run_route_origin calls : forall self endpoint method bucket_id,
  bucket_map (run self calls) !! (endpoint, method) = Some bucket_id ->
  bucket_map self !! (endpoint, method) = Some bucket_id \/
  exists header now,
    observe endpoint method header now ∈ calls /\
    named_bucket header = Some bucket_id.
Proof.
  induction calls as [|c calls IH]; intros self endpoint method bucket_id;
    [by left|].
  rewrite run_cons. intros Hrun.
  destruct (IH _ _ _ _ Hrun) as [Hstep|(h & t & Hin & Hrest)].
  - destruct (step_route_origin _ _ _ _ _ Hstep)
      as [Hself|(h & t & -> & Hrest)]; [by left|].
    right. exists h, t. split; [apply list_elem_of_here|done].
  - right. exists h, t. split; [by apply list_elem_of_further|done].
Qed.

Lemma run_app self calls1 calls2 :
  run self (calls1 ++ calls2) = run (run self calls1) calls2.
Proof. unfold run. apply foldl_app. Qed.

Lemma run_keeps_routes calls : forall self route,
  is_Some (bucket_map self !! route) ->
  is_Some (bucket_map (run self calls) !! route).
Proof.
  induction calls as [|c calls IH]; intros self route Hroute; [done|].
  rewrite run_cons. by apply IH, step_keeps_routes.
Qed.

Lemma run_keeps_buckets calls : forall self bucket_id,
  is_Some (buckets self !! bucket_id) ->
  is_Some (buckets (run self calls) !! bucket_id).
Proof.
  induction calls as [|c calls IH]; intros self bucket_id Hbucket; [done|].
  rewrite run_cons. by apply IH, step_keeps_buckets.
Qed.

End histories.

(** X8.  Nothing is ever forgotten: over any history of calls, from any
    limiter, a route that has a bucket keeps having one and a bucket that has
    a record keeps having one.  Neither method deletes an entry. *)
Theorem entries_are_never_removed `{Builtins}
    (self : RateLimiter) (calls : list call) :
  (forall route, is_Some (bucket_map self !! route) ->
     is_Some (bucket_map (run self calls) !! route)) /\
  (forall bucket_id, is_Some (buckets self !! bucket_id) ->
     is_Some (buckets (run self calls) !! bucket_id)).
Proof.
  split.
  - intros route. apply run_keeps_routes.
  - intros bucket_id. apply run_keeps_buckets.
Qed.

(** X9.  The mapping of a route changes only through responses on that very
    route that name a bucket.  Over a history without such a response the
    route keeps its mapping; a route that had none still has none, and
    [wait_until_not_ratelimited] on it returns without awaiting anything,
    whatever was observed on other routes. *)
Theorem route_mapping_changes_only_by_own_responses `{Builtins}
    (self : RateLimiter) (calls : list call)
    (endpoint : string) (method : HttpCallable) :
  forallb (fun c => negb (names_bucket_on endpoint method c)) calls = true ->
  bucket_map (run self calls) !! (endpoint, method)
    = bucket_map self !! (endpoint, method) /\
  (bucket_map self !! (endpoint, method) = None ->
   forall cur_time,
     wait_until_not_ratelimited (run self calls) endpoint method cur_time
       = Return Immediate).
Proof.
  intros Hcalls.
  assert (Hsame : bucket_map (run self calls) !! (endpoint, method)
                  = bucket_map self !! (endpoint, method)).
  { revert self. induction calls as [|c calls IH]; intros self; [done|].
    simpl in Hcalls. apply andb_prop in Hcalls as [Hc Hcalls].
    rewrite run_cons, (IH Hcalls). apply step_other_route.
    by apply negb_true_iff. }
  split; [done|].
  intros Hnone cur_time. apply wait_unmapped. by rewrite Hsame.
Qed.

Lemma route_mapping_changes_witness :
  wait_until_not_ratelimited
    (run (H := decimal) __init__
       [observe "/channels/{id}" GET scenario_A_header 0;
        observe "/users/@me" GET global_429_header 1;
        acquire "/users/@me" GET 1.5])
    "/users/@me" GET 2 = Return Immediate.
Proof.
  refine (proj2 (route_mapping_changes_only_by_own_responses (H := decimal)
                   __init__
                   [observe "/channels/{id}" GET scenario_A_header 0;
                    observe "/users/@me" GET global_429_header 1;
                    acquire "/users/@me" GET 1.5]
                   "/users/@me" GET _) _ 2%float).
  - vm_compute. reflexivity.
  - vm_compute. reflexivity.
Defined.

(** X10.  Every entry of a limiter that started empty comes whole from one
    response of its history: a stored record is exactly the record built from
    the headers and the clock of one observed response that named that
    bucket, and the bucket id a route is mapped to is the non-empty id named
    by a response observed on that route. *)
Theorem entries_come_from_observed_responses `{Builtins} (calls : list call) :
  (forall bucket_id bucket,
     buckets (run __init__ calls) !! bucket_id = Some bucket ->
     exists endpoint method header now,
       observe endpoint method header now ∈ calls /\
       named_bucket header = Some bucket_id /\
       Bucket_of_header header now = Return bucket) /\
  (forall endpoint method bucket_id,
     bucket_map (run __init__ calls) !! (endpoint, method) = Some bucket_id ->
     truthy bucket_id = true /\
     exists header now,
       observe endpoint method header now ∈ calls /\
       named_bucket header = Some bucket_id).
Proof.
  split.
  - intros bucket_id bucket Hrun.
    by destruct (run_bucket_origin _ _ _ _ Hrun) as [Hempty|?].
  - intros endpoint method bucket_id Hrun.
    destruct (run_route_origin _ _ _ _ _ Hrun)
      as [Hempty|(h & t & Hin & Hnamed)]; [done|].
    split; [by apply named_bucket_Some in Hnamed as [_ ?]|by exists h, t].
Qed.

(** X16.  Why [wait_until_not_ratelimited] can raise.  On a limiter that
    started empty it raises nothing but the [KeyError] of the record lookup,
    and only when an earlier [save_response_bucket] on that very route named
    the bucket and then raised while building the record: the route was
    mapped, the record never stored. *)
Theorem acquire_raises_only_after_failed_observe `{Builtins}
    (calls : list call) (endpoint : string) (method : HttpCallable)
    (cur_time : float) (x : exc) :
  wait_until_not_ratelimited (run __init__ calls) endpoint method cur_time
    = Raise x ->
  exists bucket_id header now e,
    x = KeyError bucket_id /\
    observe endpoint method header now ∈ calls /\
    named_bucket header = Some bucket_id /\
    Bucket_of_header header now = Raise e.
Proof.
  unfold wait_until_not_ratelimited.
  destruct (bucket_map (run __init__ calls) !! (endpoint, method))
    as [bucket_id|] eqn:Hroute; [|done].
  destruct (buckets (run __init__ calls) !! bucket_id) as [bucket|] eqn:Hbucket.
  { by destruct (remaining bucket =? 0). }
  intros [= <-].
  destruct (run_route_origin _ _ _ _ _ Hroute)
    as [Hempty|(header & now & Hin & Hnamed)]; [done|].
  exists bucket_id, header, now.
  destruct (Bucket_of_header header now) as [built|e] eqn:Hbuilt;
    [|by exists e].
  apply list_elem_of_split in Hin as (before & after & ->).
  rewrite run_app, run_cons in Hbucket.
  assert (Hstored : is_Some (buckets (run (step (run __init__ before)
            (observe endpoint method header now)) after) !! bucket_id)).
  { apply run_keeps_buckets. simpl.
    rewrite (save_named _ _ _ _ _ _ Hnamed), Hbuilt. simpl.
    rewrite lookup_insert_eq. by eexists. }
  rewrite Hbucket in Hstored. by destruct Hstored.
Qed.

Lemma acquire_raises_witness :
  exists bucket_id header now e,
    KeyError "b1" = KeyError bucket_id /\
    observe "/channels/{id}" GET header now
      ∈ [observe "/channels/{id}" GET bucket_only_header 0] /\
    named_bucket header = Some bucket_id /\
    Bucket_of_header (H := decimal) header now = Raise e.
Proof.
  apply (acquire_raises_only_after_failed_observe (H := decimal)
           [observe "/channels/{id}" GET bucket_only_header 0]
           "/channels/{id}" GET 0.5 (KeyError "b1")).
  vm_compute. reflexivity.
Defined.

(** * Further properties of [HttpApi.get] *)

(** X11.  However it ends, one call of [HttpApi.get] sends exactly one
    request, to ["https://discord.com/api/v{version}/{path}"] with the single
    header [Authorization: Bot {token}], and takes at most the first response
    off the wire. *)
Theorem get_sends_exactly_one_request {J : Type}
    (version token path : string) (net : http.Network J) :
  let result := http.get (http.__init__ version token) path net in
  http.sent result.1
    = app (http.sent net)
        [((("https://discord.com/api/v" ++ version) ++ "/" ++ path)%string,
          <["Authorization" := ("Bot " ++ token)%string]> ∅)] /\
  http.pending result.1 = tail (http.pending net).
Proof.
  intros result. subst result. unfold http.get, http.requests_get.
  destruct (http.pending net) as [|res rest]; [done|].
  by destruct (http.status_code res =? 200).
Qed.

(** X12.  [HttpApi.get] returns a body only for a response with status 200
    whose [json()] returns that body; when no response arrives, the
    transport's exception reaches the caller as it is. *)
Theorem get_returns_only_on_200 {J : Type}
    (self : http.HttpApi) (path : string) (net : http.Network J) :
  let result := (http.get self path net).2 in
  (forall body, result = Return body <->
     exists res rest, http.pending net = res :: rest /\
       http.status_code res = 200 /\ http.json res = Return body) /\
  (http.pending net = [] -> result = Raise ConnectionError).
Proof.
  intros result. subst result. unfold http.get, http.requests_get.
  destruct (http.pending net) as [|res rest]; simpl.
  - split; [|done]. intros body. split; [done|]. by intros (? & ? & ? & _).
  - split; [|done]. intros body.
    destruct (http.status_code res =? 200) eqn:Hstatus; simpl.
    + apply Z.eqb_eq in Hstatus. split; [by exists res, rest|].
      by intros (res' & rest' & [= <- <-] & _ & ?).
    + apply Z.eqb_neq in Hstatus. split; [done|].
      by intros (res' & rest' & [= <- <-] & ? & _).
Qed.

(** * [construct_client_dict] *)

(** X13.  In the dictionary [construct_client_dict] builds, ["_client"] is the
    client and ["_http"] its [http], also when the payload itself has such
    keys; every other key holds what the payload holds.  Wrapping again
    replaces the earlier client altogether, so wrapping twice with one client
    is wrapping once. *)
Theorem construct_client_dict_binds_client {object : Type}
    (http : object -> object) (client : object) (data : gmap string object) :
  let result := conversion.construct_client_dict http client data in
  result !! "_client" = Some client /\
  result !! "_http" = Some (http client) /\
  (forall key, key <> "_client" -> key <> "_http" ->
     result !! key = data !! key) /\
  (forall later,
     conversion.construct_client_dict http later result
     = conversion.construct_client_dict http later data).
Proof.
  intros result. subst result. unfold conversion.construct_client_dict.
  split; [by rewrite lookup_insert_ne, lookup_insert_eq|].
  split; [by rewrite lookup_insert_eq|].
  split.
  - intros key Hclient Hhttp. by rewrite !lookup_insert_ne.
  - intros later. apply map_eq. intros key.
    destruct (decide (key = "_http")) as [->|Hhttp];
      [by rewrite !lookup_insert_eq|].
    rewrite (lookup_insert_ne _ "_http" key) by done.
    rewrite (lookup_insert_ne _ "_http" key) by done.
    destruct (decide (key = "_client")) as [->|Hclient];
      [by rewrite !lookup_insert_eq|].
    by rewrite !lookup_insert_ne.
Qed.

(** * Channel types and classes *)

Section channel_types.
Import channel.

Lemma ChannelType_value (t : ChannelType) : ChannelType_ (value t) = Some t.
Proof. by destruct t. Qed.

Lemma ChannelType_Some (raw : Z) (t : ChannelType) :
  ChannelType_ raw = Some t -> value t = raw.
Proof.
  unfold ChannelType_. intros Hfind.
  apply List.find_some in Hfind as [_ Heq]. by apply Z.eqb_eq.
Qed.

Lemma ChannelType_None (raw : Z) :
  ChannelType_ raw = None <-> raw < 0 \/ 7 <= raw <= 9 \/ 13 < raw.
Proof.
  split.
  - intros Hnone.
    assert (Hall : forall t, value t <> raw).
    { intros t Ht.
      assert (Hin : In t members) by (destruct t; simpl; tauto).
      pose proof (List.find_none _ _ Hnone t Hin) as Hne. simpl in Hne.
      by apply Z.eqb_neq in Hne. }
    pose proof (Hall GUILD_TEXT). pose proof (Hall DM).
    pose proof (Hall GUILD_VOICE). pose proof (Hall GROUP_DM).
    pose proof (Hall GUILD_CATEGORY). pose proof (Hall GUILD_NEWS).
    pose proof (Hall GUILD_STORE). pose proof (Hall GUILD_NEWS_THREAD).
    pose proof (Hall GUILD_PUBLIC_THREAD). pose proof (Hall GUILD_PRIVATE_THREAD).
    pose proof (Hall GUILD_STAGE_VOICE). simpl in *. lia.
  - intros Hraw. destruct (ChannelType_ raw) as [t|] eqn:Hfind; [|done].
    apply ChannelType_Some in Hfind. destruct t; simpl in Hfind; lia.
Qed.

End channel_types.

(** X14.  [ChannelType] and the integers: every member is recovered from its
    value, a value that yields a member is that member's value, and
    [ChannelType(raw)] raises exactly for the integers of no member, that is
    below 0, from 7 to 9, and above 13. *)
Theorem ChannelType_round_trip :
  (forall t, channel.ChannelType_ (channel.value t) = Some t) /\
  (forall raw t, channel.ChannelType_ raw = Some t -> channel.value t = raw) /\
  (forall raw, channel.ChannelType_ raw = None <->
     raw < 0 \/ 7 <= raw <= 9 \/ 13 < raw).
Proof.
  split; [exact ChannelType_value|]. split; [exact ChannelType_Some|].
  exact ChannelType_None.
Qed.

(** X15.  The class [Channel.from_id] and [Channel.edit] select: none (the
    call raises [ValueError]) exactly for a type integer of no member;
    otherwise the subclass listed in [_channel_type_map], and the base class
    [Channel] exactly for types 1, 3, 6, 10 and 13 (DM, group DM, store, news
    thread, stage voice), which the map leaves out. *)
Theorem channel_cls_selection (raw_type : Z) :
  (channel.channel_cls raw_type = None <->
     raw_type < 0 \/ 7 <= raw_type <= 9 \/ 13 < raw_type) /\
  (channel.channel_cls raw_type = Some channel.Channel <->
     raw_type = 1 \/ raw_type = 3 \/ raw_type = 6 \/ raw_type = 10 \/
     raw_type = 13) /\
  (channel.channel_cls raw_type = Some channel.PublicThread <-> raw_type = 11) /\
  (channel.channel_cls raw_type = Some channel.PrivateThread <-> raw_type = 12).
Proof.
  unfold channel.channel_cls.
  destruct (channel.ChannelType_ raw_type) as [t|] eqn:Ht.
  - apply ChannelType_Some in Ht. subst raw_type.
    destruct t; vm_compute; repeat split; intros; try done; try lia;
      try (intuition congruence).
  - pose proof (proj1 (ChannelType_None raw_type) Ht) as Hraw. simpl.
    repeat split; intros; try done; try lia.
Qed.
